(** * devx: the [git] subcommands (src/commands/git.rs)

    A shallow embedding of [git_exec], [get_branch_info], [sync], [switch]
    and [delete].  The outside world (the [git] child processes, the
    [which] lookup and the interactive [inquire] prompts) is an environment
    record whose answers may depend on everything that happened before
    (the trace), so a run of a workflow is a function from the environment
    to its result and the trace of observable events. *)

From Stdlib Require Import List String Ascii NArith ZArith Bool.
From Stdlib Require Strings.Byte.
From Stdlib Require Import Lia.
Import ListNotations.

Open Scope list_scope.

(** ** Rust text: [String]/[&str] as a list of Unicode scalar values *)

Definition ustr := list N.

(** A Rust string literal (all literals of git.rs are ASCII). *)
Definition u (s : string) : ustr := map N_of_ascii (list_ascii_of_string s).

Definition ustr_eqb (a b : ustr) : bool :=
  (fix go (a b : ustr) : bool :=
     match a, b with
     | [], [] => true
     | x :: a', y :: b' => N.eqb x y && go a' b'
     | _, _ => false
     end) a b.

Fixpoint args_eqb (a b : list ustr) : bool :=
  match a, b with
  | [], [] => true
  | x :: a', y :: b' => ustr_eqb x y && args_eqb a' b'
  | _, _ => false
  end.

(** [String::from_utf8_lossy]: every maximal prefix of an ill-formed
    sequence becomes one U+FFFD. *)
Definition replacement : N := 65533.

Definition cont (b : Byte.byte) : bool :=
  (128 <=? Byte.to_N b)%N && (Byte.to_N b <=? 191)%N.

Definition in_range (lo hi : N) (b : Byte.byte) : bool :=
  (lo <=? Byte.to_N b)%N && (Byte.to_N b <=? hi)%N.

Definition low6 (b : Byte.byte) : N := N.land (Byte.to_N b) 63.

(** One decoding step: the scalar value produced and the rest of the input. *)
Definition utf8_step (b0 : Byte.byte) (rest : list Byte.byte) : N * list Byte.byte :=
  let n0 := Byte.to_N b0 in
  if (n0 <? 128)%N then (n0, rest)
  else if in_range 194 223 b0 then
    match rest with
    | b1 :: r1 =>
        if cont b1 then (N.lor (N.shiftl (N.land n0 31) 6) (low6 b1), r1)
        else (replacement, rest)
    | [] => (replacement, rest)
    end
  else if in_range 224 239 b0 then
    let ok1 := if (n0 =? 224)%N then in_range 160 191
               else if (n0 =? 237)%N then in_range 128 159 else cont in
    match rest with
    | b1 :: r1 =>
        if ok1 b1 then
          match r1 with
          | b2 :: r2 =>
              if cont b2 then
                (N.lor (N.shiftl (N.land n0 15) 12)
                       (N.lor (N.shiftl (low6 b1) 6) (low6 b2)), r2)
              else (replacement, r1)
          | [] => (replacement, r1)
          end
        else (replacement, rest)
    | [] => (replacement, rest)
    end
  else if in_range 240 244 b0 then
    let ok1 := if (n0 =? 240)%N then in_range 144 191
               else if (n0 =? 244)%N then in_range 128 143 else cont in
    match rest with
    | b1 :: r1 =>
        if ok1 b1 then
          match r1 with
          | b2 :: r2 =>
              if cont b2 then
                match r2 with
                | b3 :: r3 =>
                    if cont b3 then
                      (N.lor (N.shiftl (N.land n0 7) 18)
                        (N.lor (N.shiftl (low6 b1) 12)
                          (N.lor (N.shiftl (low6 b2) 6) (low6 b3))), r3)
                    else (replacement, r2)
                | [] => (replacement, r2)
                end
              else (replacement, r1)
          | [] => (replacement, r1)
          end
        else (replacement, rest)
    | [] => (replacement, rest)
    end
  else (replacement, rest).

(** Each step consumes at least one byte, so [length bs] bounds the steps. *)
Fixpoint utf8_decode_fuel (fuel : nat) (bs : list Byte.byte) : ustr :=
  match fuel, bs with
  | _, [] => []
  | O, _ :: _ => []
  | S f, b0 :: rest =>
      let (c, rest') := utf8_step b0 rest in c :: utf8_decode_fuel f rest'
  end.

Definition from_utf8_lossy (bs : list Byte.byte) : ustr :=
  utf8_decode_fuel (List.length bs) bs.

(** [char::is_whitespace] (the Unicode White_Space property). *)
Definition is_whitespace (c : N) : bool :=
  ((9 <=? c)%N && (c <=? 13)%N) || (c =? 32)%N || (c =? 133)%N
  || (c =? 160)%N || (c =? 5760)%N || ((8192 <=? c)%N && (c <=? 8202)%N)
  || (c =? 8232)%N || (c =? 8233)%N || (c =? 8239)%N || (c =? 8287)%N
  || (c =? 12288)%N.

Fixpoint trim_start (s : ustr) : ustr :=
  match s with
  | c :: s' => if is_whitespace c then trim_start s' else s
  | [] => []
  end.

Definition trim_end (s : ustr) : ustr := rev (trim_start (rev s)).

(** [str::trim] *)
Definition trim (s : ustr) : ustr := trim_end (trim_start s).

Definition star : N := 42.

(** [str::starts_with('*')] *)
Definition starts_with_star (s : ustr) : bool :=
  match s with
  | c :: _ => (c =? star)%N
  | [] => false
  end.

(** [str::trim_start_matches('*')] *)
Fixpoint trim_start_matches_star (s : ustr) : ustr :=
  match s with
  | c :: s' => if (c =? star)%N then trim_start_matches_star s' else s
  | [] => []
  end.

Definition newline : N := 10.
Definition carriage_return : N := 13.

(** [str::split_inclusive('\n')]: pieces keep their terminator, a final
    empty piece is not produced. *)
Fixpoint split_inclusive_nl (s : ustr) : list ustr :=
  match s with
  | [] => []
  | c :: s' =>
      if (c =? newline)%N then [c] :: split_inclusive_nl s'
      else match split_inclusive_nl s' with
           | [] => [[c]]
           | p :: ps =>
               (* [p] is the rest of the line [c] is on *)
               (c :: p) :: ps
           end
  end.

(** The map of [str::lines]: strip one ['\n'], then one ['\r'] before it. *)
Definition strip_line_ending (line : ustr) : ustr :=
  match rev line with
  | c :: r =>
      if (c =? newline)%N then
        match r with
        | c' :: r' => if (c' =? carriage_return)%N then rev r' else rev r
        | [] => []
        end
      else line
  | [] => line
  end.

(** [str::lines] *)
Definition lines (s : ustr) : list ustr := map strip_line_ending (split_inclusive_nl s).

(** ** Processes, prompts and errors *)

(** [std::process::ExitStatus]: an exit code, or none when the child was
    killed by a signal. *)
Inductive exit_status := Exited (code : Z) | Signaled.

(** [ExitStatus::success] *)
Definition success (st : exit_status) : bool :=
  match st with Exited c => Z.eqb c 0 | Signaled => false end.

(** [std::process::Output] *)
Record output := mk_output {
  status : exit_status;
  stdout : list Byte.byte;
  stderr : list Byte.byte
}.

(** What the operating system does with one [git] invocation: it cannot be
    spawned (the text of the [io::Error]), or it runs and ends with a status
    after writing to its output streams. *)
Inductive child := SpawnFailed (io_error : ustr) | Ran (st : exit_status) (out err : list Byte.byte).

(** [crate::CliError] (only the variant git.rs produces). *)
Inductive cli_error := Command (msg : ustr).

(** [inquire::InquireError] *)
Inductive inquire_error :=
| NotTTY
| InvalidConfiguration (msg : ustr)
| IO (msg : ustr)
| OperationCanceled
| OperationInterrupted
| Custom (msg : ustr).

(** The [Display] text of [InquireError]. *)
Definition display_inquire_error (e : inquire_error) : ustr :=
  match e with
  | NotTTY => u "The input device is not a TTY"
  | InvalidConfiguration m => u "The prompt configuration is invalid: " ++ m
  | IO m => u "IO error: " ++ m
  | OperationCanceled => u "Operation was canceled by the user"
  | OperationInterrupted => u "Operation was interrupted by the user"
  | Custom m => m
  end.

(** Rust's [Result]. *)
Inductive result (A E : Type) := Ok (a : A) | Err (e : E).
Arguments Ok {A E} a.
Arguments Err {A E} e.

(** What the user does at a [Confirm] prompt: type yes, type no, press
    enter on an empty line (the prompt's default), or the prompt fails. *)
Inductive confirm_input := TypedYes | TypedNo | EmptyInput | ConfirmFailed (e : inquire_error).

(** Observable events of a run, in order. *)
Inductive event :=
| EvExec (args : list ustr) (capture : bool) (launched : bool)
    (** a [git] child was requested; [launched] says whether it was spawned *)
| EvInherited (out err : list Byte.byte)
    (** what a non-captured child wrote to the terminal *)
| EvPrint (line : ustr)
    (** a [println!] *)
| EvSelect (msg : ustr) (options : list ustr) (answer : result ustr inquire_error)
| EvConfirm (msg : ustr) (default : bool) (help : ustr) (answer : confirm_input).

Definition trace := list event.

(** The errors of [which::which]; their [Debug] form is the variant's name. *)
Inductive which_error :=
| BadAbsolutePath | BadRelativePath | CannotFindBinaryPath
| CannotGetCurrentDir | CannotGetCurrentDirAndPathListEmpty | CannotCanonicalize.

Definition debug_which_error (e : which_error) : ustr :=
  match e with
  | BadAbsolutePath => u "BadAbsolutePath"
  | BadRelativePath => u "BadRelativePath"
  | CannotFindBinaryPath => u "CannotFindBinaryPath"
  | CannotGetCurrentDir => u "CannotGetCurrentDir"
  | CannotGetCurrentDirAndPathListEmpty => u "CannotGetCurrentDirAndPathListEmpty"
  | CannotCanonicalize => u "CannotCanonicalize"
  end.

(** The environment of one invocation. *)
Record env := mk_env {
  git_on_path : bool;
    (** [which("git")] finds the binary *)
  which_failure : which_error;
    (** the error [which("git")] returns when it does not *)
  run_git : trace -> list ustr -> child;
  select_answer : trace -> ustr -> list ustr -> result ustr inquire_error;
  confirm_answer : trace -> ustr -> bool -> ustr -> confirm_input
}.

(** ** A state monad over the trace, with Rust's [?] and [panic!] *)

Inductive outcome (A : Type) := Ret (a : A) | Throw (e : cli_error) | Panic (msg : ustr).
Arguments Ret {A} a.
Arguments Throw {A} e.
Arguments Panic {A} msg.

Definition M (A : Type) := trace -> outcome A * trace.

Definition ret {A} (a : A) : M A := fun tr => (Ret a, tr).

(** [bind] is Rust's [?]: an [Err] (or a panic) ends the function. *)
Definition bind {A B} (m : M A) (k : A -> M B) : M B :=
  fun tr =>
    match m tr with
    | (Ret a, tr') => k a tr'
    | (Throw e, tr') => (Throw e, tr')
    | (Panic s, tr') => (Panic s, tr')
    end.

Notation "x <- m ;; k" := (bind m (fun x => k))
  (at level 61, m at next level, right associativity).
Notation "m ;;; k" := (bind m (fun _ => k))
  (at level 61, right associativity).

Definition emit (e : event) : M unit := fun tr => (Ret tt, tr ++ [e]).

(** [println!]: writing to the terminal is assumed to succeed (Rust's
    [println!] panics when stdout cannot be written; that is not modelled). *)
Definition println (s : ustr) : M unit := emit (EvPrint s).

(** [colored]'s styling (bold, dimmed) only wraps the text in escape codes;
    the styling is not modelled, the text is. *)
Definition bold (s : ustr) : ustr := s.
Definition dimmed (s : ustr) : ustr := s.

Section Git.

Variable E : env.

(** [which("git").expect("git not found. install git and try again.")]:
    [Result::expect] panics with the message, [": "] and the error's
    [Debug] form. *)
Definition which_git : M unit :=
  fun tr => if git_on_path E then (Ret tt, tr)
            else (Panic (u "git not found. install git and try again." ++ u ": "
                         ++ debug_which_error (which_failure E)), tr).

(** [git_exec] *)
Definition git_exec (args : list ustr) (error_msg : ustr) (capture_output : bool) : M output :=
  fun tr =>
    match run_git E tr args with
    | SpawnFailed io =>
        (Throw (Command (error_msg ++ u ": " ++ io)), tr ++ [EvExec args capture_output false])
    | Ran st out err =>
        if capture_output then
          (Ret (mk_output st out err), tr ++ [EvExec args capture_output true])
        else
          (Ret (mk_output st [] []),
           tr ++ [EvExec args capture_output true; EvInherited out err])
    end.

(** [Select::new(msg, options).prompt()]; [inquire] refuses an empty list. *)
Definition select_prompt (msg : ustr) (options : list ustr) : M (result ustr inquire_error) :=
  fun tr =>
    match options with
    | [] => (Ret (Err (InvalidConfiguration (u "Available options can not be empty"))), tr)
    | _ :: _ =>
        let a := select_answer E tr msg options in
        (Ret a, tr ++ [EvSelect msg options a])
    end.

(** [Confirm::new(msg).with_default(default).with_help_message(help).prompt()] *)
Definition confirm_prompt (msg : ustr) (default : bool) (help : ustr) : M (result bool inquire_error) :=
  fun tr =>
    let a := confirm_answer E tr msg default help in
    let r := match a with
             | TypedYes => Ok true
             | TypedNo => Ok false
             | EmptyInput => Ok default
             | ConfirmFailed e => Err e
             end in
    (Ret r, tr ++ [EvConfirm msg default help a]).

End Git.

(** ** The workflows *)

Definition branch_list_args : list ustr := [u "--no-pager"; u "branch"; u "--no-color"].

(** The parsing part of [get_branch_info]: current branch and the others. *)
Definition parse_branch_output (stdout_bytes : list Byte.byte) : ustr * list ustr :=
  let git_output_str := from_utf8_lossy stdout_bytes in
  let all_branches := map trim (lines git_output_str) in
  let current_branch :=
    match find starts_with_star all_branches with
    | Some branch => trim (trim_start_matches_star branch)
    | None => u "main"
    end in
  let other_branches :=
    map trim (filter (fun branch => negb (starts_with_star branch)) all_branches) in
  (current_branch, other_branches).

Definition is_empty {A} (l : list A) : bool := match l with [] => true | _ => false end.

Section Workflows.

Variable E : env.

(** [get_branch_info] *)
Definition get_branch_info : M (ustr * list ustr) :=
  which_git E ;;;
  git_output <- git_exec E branch_list_args (u "failed to get branch list") true ;;
  ret (parse_branch_output (stdout git_output)).

(** The staging and stashing block of [sync] and [switch]; its value is
    [local_changes_stashed]. *)
Definition stash_local_changes : M bool :=
  println (bold (u "checking local branch status")) ;;;
  git_status <- git_exec E [u "status"; u "--porcelain"] (u "failed to get git status") true ;;
  if negb (is_empty (stdout git_status)) then
    println (u "- local changes found. stashing local changes") ;;;
    git_exec E [u "add"; u "."] (u "failed to stage local changes") false ;;;
    git_exec E [u "stash"] (u "failed to stash local changes") false ;;;
    ret true
  else ret false.

(** The restoring block of [sync] and [switch]. *)
Definition restore_local_changes (local_changes_stashed : bool) : M unit :=
  if local_changes_stashed then
    println (bold (u "restoring stashed changes")) ;;;
    git_exec E [u "stash"; u "pop"] (u "failed to restore local changes") false ;;;
    git_exec E [u "stash"; u "clear"] (u "failed to clear stash") false ;;;
    println (bold (u "unstaging local changes.")) ;;;
    git_exec E [u "reset"] (u "failed to unstage local changes") false ;;;
    ret tt
  else ret tt.

(** [sync] *)
Definition sync : M unit :=
  which_git E ;;;
  git_check <- git_exec E [u "rev-parse"; u "--git-dir"] (u "failed to execute git command") true ;;
  if negb (success (status git_check)) then
    println (u "current directory is not a git repository. nothing to sync.") ;;; ret tt
  else
  remote_status <- git_exec E [u "rev-parse"; u "--abbrev-ref"; u "--symbolic-full-name"; u "@{u}"]
                     (u "failed to get upstream branch") true ;;
  if negb (success (status remote_status)) then
    println (u "no upstream branch found. nothing to sync") ;;; ret tt
  else
  local_changes_stashed <- stash_local_changes ;;
  println (bold (u "syncing changes with upstream branch")) ;;;
  git_exec E [u "fetch"; u "-p"] (u "failed to fetch remote changes") false ;;;
  git_exec E [u "pull"; u "--rebase"] (u "failed to pull remote changes") false ;;;
  git_log_output <- git_exec E [u "log"; u "-1"; u "--oneline"] (u "failed to get latest commit") true ;;
  let latest_commit := trim (from_utf8_lossy (stdout git_log_output)) in
  println (u "- latest commit: " ++ dimmed latest_commit) ;;;
  restore_local_changes local_changes_stashed ;;;
  println (bold (u "git sync complete ^.^")) ;;;
  ret tt.

(** [switch] *)
Definition switch : M unit :=
  info <- get_branch_info ;;
  let (current_branch, other_branches) := info in
  if is_empty other_branches then
    println (u "no other local branches found except for: " ++ bold current_branch
             ++ u ". nothing to switch.") ;;; ret tt
  else
  println (bold (u "current branch") ++ u ": " ++ current_branch) ;;;
  selected <- select_prompt E (u "select new branch:") other_branches ;;
  match selected with
  | Err OperationCanceled =>
      println (bold (u "aborting branch switch")) ;;; ret tt
  | Err e =>
      println (u "unexpected error: " ++ display_inquire_error e ++ u ". "
               ++ bold (u "aborting branch switch")) ;;; ret tt
  | Ok new_branch =>
      local_changes_stashed <- stash_local_changes ;;
      git_exec E [u "checkout"; new_branch] (u "failed to switch branch") false ;;;
      restore_local_changes local_changes_stashed ;;;
      println (bold (u "branch switch complete ^.^")) ;;;
      ret tt
  end.

(** [delete] *)
Definition delete : M unit :=
  info <- get_branch_info ;;
  let (current_branch, other_branches) := info in
  if is_empty other_branches then
    println (u "no other local branches found except for: " ++ bold current_branch
             ++ u ". nothing to delete.") ;;; ret tt
  else
  selected <- select_prompt E (u "select branch to delete:") other_branches ;;
  match selected with
  | Err OperationCanceled =>
      println (bold (u "aborting branch delete")) ;;; ret tt
  | Err e =>
      println (u "unexpected error: " ++ display_inquire_error e ++ u ". "
               ++ bold (u "aborting branch delete")) ;;; ret tt
  | Ok branch_to_delete =>
      confirm <- confirm_prompt E (u "are you sure?") false (u "this action is irreversible") ;;
      (match confirm with
       | Ok true =>
           git_exec E [u "branch"; u "-D"; branch_to_delete] (u "failed to delete branch") false ;;;
           println (bold (u "branch delete complete ^.^"))
       | Ok false | Err OperationCanceled =>
           println (bold (u "aborting branch delete"))
       | Err e =>
           println (u "unexpected error: " ++ display_inquire_error e ++ u ". "
                    ++ bold (u "aborting branch delete"))
       end) ;;;
      ret tt
  end.

End Workflows.

(** ** Reading a trace *)

Definition stash_args : list ustr := [u "stash"].
Definition pop_args : list ustr := [u "stash"; u "pop"].
Definition clear_args : list ustr := [u "stash"; u "clear"].
Definition reset_args : list ustr := [u "reset"].
Definition fetch_args : list ustr := [u "fetch"; u "-p"].
Definition pull_args : list ustr := [u "pull"; u "--rebase"].
Definition log_args : list ustr := [u "log"; u "-1"; u "--oneline"].
Definition status_args : list ustr := [u "status"; u "--porcelain"].

(** A [git] child with these arguments was requested. *)
Definition is_exec (args : list ustr) (e : event) : bool :=
  match e with EvExec a _ _ => args_eqb a args | _ => false end.

(** ... and was spawned. *)
Definition is_launched (args : list ustr) (e : event) : bool :=
  match e with EvExec a _ true => args_eqb a args | _ => false end.

(** [local_changes_stashed] became true: the [git stash] child was spawned. *)
Definition stashed (tr : trace) : bool := existsb (is_launched stash_args) tr.

(** The commands that only read the repository. *)
Definition query_commands : list (list ustr) :=
  [ [u "rev-parse"; u "--git-dir"];
    [u "rev-parse"; u "--abbrev-ref"; u "--symbolic-full-name"; u "@{u}"];
    status_args; log_args; branch_list_args ].

Definition is_query (args : list ustr) : bool := existsb (args_eqb args) query_commands.

(** Every [git] child the run requested only reads the repository. *)
Definition no_mutation (tr : trace) : bool :=
  forallb (fun e => match e with EvExec a _ _ => is_query a | _ => true end) tr.

(** [git branch -D <name>] was requested. *)
Definition is_branch_delete (e : event) : bool :=
  match e with
  | EvExec [b1; b2; _] _ _ => ustr_eqb b1 (u "branch") && ustr_eqb b2 (u "-D")
  | _ => false
  end.

Definition is_typed_yes (e : event) : bool :=
  match e with EvConfirm _ _ _ TypedYes => true | _ => false end.

Definition is_confirm (e : event) : bool :=
  match e with EvConfirm _ _ _ _ => true | _ => false end.

Definition confirm_default_false (e : event) : bool :=
  match e with EvConfirm _ d _ _ => negb d | _ => true end.

(** The answers the selection prompts gave, in order. *)
Definition select_answers (tr : trace) : list (result ustr inquire_error) :=
  flat_map (fun e => match e with EvSelect _ _ a => [a] | _ => [] end) tr.

(** The inputs given at confirmation prompts, in order. *)
Definition confirm_inputs (tr : trace) : list confirm_input :=
  flat_map (fun e => match e with EvConfirm _ _ _ a => [a] | _ => [] end) tr.

(** The latest-commit report line of [sync]. *)
Definition is_commit_report (e : event) : bool :=
  match e with
  | EvPrint l => ustr_eqb (firstn 17 l) (u "- latest commit: ")
  | _ => false
  end.

(** The completion message of [sync]. *)
Definition is_sync_complete (e : event) : bool :=
  match e with EvPrint l => ustr_eqb l (u "git sync complete ^.^") | _ => false end.

(** Position of the first event satisfying [p]. *)
Fixpoint find_index (p : event -> bool) (tr : trace) : option nat :=
  match tr with
  | [] => None
  | e :: t => if p e then Some O else option_map S (find_index p t)
  end.

Definition last_event (tr : trace) : option event :=
  match rev tr with [] => None | e :: _ => Some e end.

(** An [inquire] failure other than the user's cancellation. *)
Definition unexpected_prompt_error (e : inquire_error) : bool :=
  match e with OperationCanceled => false | _ => true end.

(** The restoration sequence of a run: [git stash] was spawned, then
    [git stash pop], [git stash clear] and [git reset] were requested in
    this order. *)
Definition restoration_follows (tr : trace) : Prop :=
  exists a b c d, find_index (is_exec stash_args) tr = Some a /\
    find_index (is_exec pop_args) tr = Some b /\
    find_index (is_exec clear_args) tr = Some c /\
    find_index (is_exec reset_args) tr = Some d /\ (a < b < c /\ c < d)%nat.

(** ** The output of [git branch --no-color]

    One line per local branch: ["* "] before the checked-out branch,
    two spaces before the others, each line ended by a newline. *)
Definition listing_line (entry : bool * list Byte.byte) : list Byte.byte :=
  (if fst entry then [Byte.x2a; Byte.x20] else [Byte.x20; Byte.x20]) ++ snd entry ++ [Byte.x0a].

Definition git_branch_listing (entries : list (bool * list Byte.byte)) : list Byte.byte :=
  flat_map listing_line entries.

(** A branch name as it appears in the listing: ASCII, no line break,
    non-empty, no surrounding white space, not starting with ['*']. *)
Definition branch_name_ok (n : list Byte.byte) : Prop :=
  Forall (fun b => (Byte.to_N b < 128)%N) n /\ (~ In newline (map Byte.to_N n)) /\
  (n <> []) /\
  (trim_start (map Byte.to_N n) = map Byte.to_N n) /\
  (trim_end (map Byte.to_N n) = map Byte.to_N n) /\
  (starts_with_star (map Byte.to_N n) = false).

(** ** Concrete environments *)

Definition bytes_of (s : string) : list Byte.byte := map byte_of_ascii (list_ascii_of_string s).
Definition nl : string := String (ascii_of_nat 10) EmptyString.

(** A repository on [main] with a second branch [feature-x], an upstream,
    one modified file, and a network error during [git fetch -p] (exit 128);
    the user picks the first branch offered and answers the confirmation
    with [confirm_input]. *)
Definition env_fetch_fails (select : result ustr inquire_error) (answer : confirm_input) : env := {|
  git_on_path := true;
  which_failure := CannotFindBinaryPath;
  run_git := fun _ args =>
    if args_eqb args status_args then Ran (Exited 0) (bytes_of (" M a.txt" ++ nl)) []
    else if args_eqb args fetch_args then
      Ran (Exited 128) [] (bytes_of ("fatal: unable to access remote" ++ nl))
    else if args_eqb args branch_list_args then
      Ran (Exited 0) (bytes_of ("* main" ++ nl ++ "  feature-x" ++ nl)) []
    else Ran (Exited 0) [] [];
  select_answer := fun _ _ _ => select;
  confirm_answer := fun _ _ _ _ => answer |}.

(** As above, but the [git fetch -p] child cannot be spawned (the process
    table is full). *)
Definition env_fetch_spawn_fails : env := {|
  git_on_path := true;
  which_failure := CannotFindBinaryPath;
  run_git := fun _ args =>
    if args_eqb args status_args then Ran (Exited 0) (bytes_of (" M a.txt" ++ nl)) []
    else if args_eqb args fetch_args then
      SpawnFailed (u "Resource temporarily unavailable (os error 11)")
    else Ran (Exited 0) [] [];
  select_answer := fun _ _ _ => Err OperationCanceled;
  confirm_answer := fun _ _ _ _ => TypedNo |}.

(** A repository with the single branch [main]. *)
Definition env_single_branch : env := {|
  git_on_path := true;
  which_failure := CannotFindBinaryPath;
  run_git := fun _ args =>
    if args_eqb args branch_list_args then Ran (Exited 0) (bytes_of ("* main" ++ nl)) []
    else Ran (Exited 0) [] [];
  select_answer := fun _ _ _ => Err OperationCanceled;
  confirm_answer := fun _ _ _ _ => TypedNo |}.

(** A directory outside any repository: every [git] child exits with 128
    and writes nothing to its standard output. *)
Definition env_not_a_repo : env := {|
  git_on_path := true;
  which_failure := CannotFindBinaryPath;
  run_git := fun _ _ => Ran (Exited 128) [] (bytes_of ("fatal: not a git repository" ++ nl));
  select_answer := fun _ _ _ => Err OperationCanceled;
  confirm_answer := fun _ _ _ _ => TypedNo |}.

(** The decoded listing line of one branch, without its newline. *)
Definition listing_text (entry : bool * list Byte.byte) : ustr :=
  (if fst entry then [42; 32] else [32; 32])%N ++ map Byte.to_N (snd entry).

(** A command of the stash protection: [git add .], [git stash],
    [git stash pop], [git stash clear] or [git reset]. *)
Definition is_stash_activity (e : event) : bool :=
  is_exec [u "add"; u "."] e || is_exec stash_args e || is_exec pop_args e
  || is_exec clear_args e || is_exec reset_args e.

(** [git checkout <name>] was requested. *)
Definition is_checkout (e : event) : bool :=
  match e with
  | EvExec [c; _] _ _ => ustr_eqb c (u "checkout")
  | _ => false
  end.

(** Every [git] child requested is a query or [git branch -D <name>]. *)
Definition only_queries_or_branch_delete (tr : trace) : bool :=
  forallb (fun e => match e with EvExec a _ _ => is_query a || is_branch_delete e | _ => true end) tr.

(** A clean repository on [main] with a second branch [feature-x], where
    the user picks [feature-x] and confirms with yes. *)
Definition env_clean : env := {|
  git_on_path := true;
  which_failure := CannotFindBinaryPath;
  run_git := fun _ args =>
    if args_eqb args branch_list_args then
      Ran (Exited 0) (bytes_of ("* main" ++ nl ++ "  feature-x" ++ nl)) []
    else Ran (Exited 0) [] [];
  select_answer := fun _ _ _ => Ok (u "feature-x");
  confirm_answer := fun _ _ _ _ => TypedYes |}.

(** [git] is not installed. *)
Definition env_no_git : env := {|
  git_on_path := false;
  which_failure := CannotFindBinaryPath;
  run_git := fun _ _ => SpawnFailed (u "No such file or directory (os error 2)");
  select_answer := fun _ _ _ => Err OperationCanceled;
  confirm_answer := fun _ _ _ _ => TypedNo |}.

(** A repository whose branch has no upstream. *)
Definition env_no_upstream : env := {|
  git_on_path := true;
  which_failure := CannotFindBinaryPath;
  run_git := fun _ args =>
    if args_eqb args [u "rev-parse"; u "--git-dir"] then Ran (Exited 0) (bytes_of (".git" ++ nl)) []
    else Ran (Exited 128) [] (bytes_of ("fatal: no upstream configured for branch 'main'" ++ nl));
  select_answer := fun _ _ _ => Err OperationCanceled;
  confirm_answer := fun _ _ _ _ => TypedNo |}.

(** ** Proofs *)

(** Split a run [m = (r, tr)] into the cases of the environment's answers. *)
Ltac split_run H :=
  repeat (cbn in H;
    match type of H with
    | context [git_on_path ?E] => destruct (git_on_path E) eqn:?
    | context [run_git ?E ?t ?a] => destruct (run_git E t a) eqn:?
    | context [select_answer ?E ?t ?m ?o] => destruct (select_answer E t m o) as [?|[]] eqn:?
    | context [confirm_answer ?E ?t ?m ?d ?h] =>
        destruct (confirm_answer E t m d h) as [| | |[]] eqn:?
    | context [success ?s] => destruct (success s) eqn:?
    | context [parse_branch_output ?o] => destruct (parse_branch_output o) as [? [|? ?]] eqn:?
    | context [is_empty ?l] => destruct l
    end);
  cbn in H; inversion H; subst; clear H.

Lemma find_none_forallb {A} (p : A -> bool) (xs : list A) :
  forallb (fun x => negb (p x)) xs = true -> find p xs = None.
Proof.
  induction xs as [|x xs IH]; cbn; [reflexivity|].
  intros Hall; apply andb_prop in Hall as [Hx Hxs].
  destruct (p x); [discriminate|]. apply IH, Hxs.
Qed.

(** C9: a spawned child's outcome: with [capture_output] false the returned
    [Output] has empty [stdout] and [stderr] and the child's status, and the
    child's streams went to the terminal; with [capture_output] true the
    returned [Output] holds the child's status and streams. *)
Theorem git_exec_capture (E : env) (tr : trace) (args : list ustr) (msg : ustr)
    (capture : bool) (st : exit_status) (out err : list Byte.byte) :
  run_git E tr args = Ran st out err ->
  git_exec E args msg capture tr =
    if capture then (Ret (mk_output st out err), tr ++ [EvExec args true true])
    else (Ret (mk_output st [] []), tr ++ [EvExec args false true; EvInherited out err]).
Proof.
  intros Hrun. unfold git_exec. rewrite Hrun. destruct capture; reflexivity.
Qed.

Lemma git_exec_capture_witness :
  run_git (env_fetch_fails (Err OperationCanceled) TypedNo) [] fetch_args
    = Ran (Exited 128) [] (bytes_of ("fatal: unable to access remote" ++ nl)) /\
  git_exec (env_fetch_fails (Err OperationCanceled) TypedNo) fetch_args
    (u "failed to fetch remote changes") false []
  = (Ret (mk_output (Exited 128) [] []),
     [EvExec fetch_args false true;
      EvInherited [] (bytes_of ("fatal: unable to access remote" ++ nl))]).
Proof.
  split; [reflexivity|].
  apply (git_exec_capture (env_fetch_fails (Err OperationCanceled) TypedNo) [] fetch_args
           (u "failed to fetch remote changes") false (Exited 128) []
           (bytes_of ("fatal: unable to access remote" ++ nl))).
  reflexivity.
Defined.

(** C8: when no trimmed line of the branch listing starts with ['*']
    (in particular when the listing is empty), [get_branch_info] returns
    ["main"] as the current branch. *)
Theorem get_branch_info_main_fallback (E : env) (st : exit_status) (out err : list Byte.byte) :
  git_on_path E = true ->
  run_git E [] branch_list_args = Ran st out err ->
  forallb (fun line => negb (starts_with_star line)) (map trim (lines (from_utf8_lossy out))) = true ->
  exists others, fst (get_branch_info E []) = Ret (u "main", others).
Proof.
  intros Hpath Hrun Hnone.
  unfold get_branch_info, bind, which_git. rewrite Hpath.
  unfold git_exec. rewrite Hrun. cbn [fst].
  cbn [stdout]. unfold ret, parse_branch_output. cbv zeta. rewrite (find_none_forallb _ _ Hnone).
  eexists; reflexivity.
Qed.

Lemma get_branch_info_main_fallback_witness :
  exists others,
    fst (get_branch_info env_not_a_repo []) = Ret (u "main", others).
Proof.
  apply (get_branch_info_main_fallback env_not_a_repo (Exited 128) []
           (bytes_of ("fatal: not a git repository" ++ nl))); reflexivity.
Defined.

Ltac unfold_run H :=
  unfold sync, switch, delete, get_branch_info, stash_local_changes, restore_local_changes,
    which_git, git_exec, select_prompt, confirm_prompt, println, emit, bind, ret in H.

Ltac close_run :=
  cbn; intros;
  repeat match goal with
  | H : false = true |- _ => discriminate H
  | H : Throw _ = Ret _ |- _ => discriminate H
  | H : Panic _ = Ret _ |- _ => discriminate H
  | H : Some _ = None |- _ => discriminate H
  | |- _ /\ _ => split
  | |- _ -> _ => intro
  | |- exists e, Throw ?x = Throw e => exists x; reflexivity
  | |- exists a b c d, Some _ = Some a /\ Some _ = Some b /\ Some _ = Some c /\ Some _ = Some d /\ _ =>
      do 4 eexists; split; [reflexivity|split; [reflexivity|split; [reflexivity|split; [reflexivity|]]]]
  | |- exists a b c, Some _ = Some a /\ Some _ = Some b /\ Some _ = Some c /\ _ =>
      do 3 eexists; split; [reflexivity|split; [reflexivity|split; [reflexivity|]]]
  end; try lia; try reflexivity.

(** C1 (amended): in a run of [sync] or [switch] that stashed local
    changes, a run that returns [Ok(())] has executed the restoration
    sequence (stash pop, stash clear, reset, in that order, after the
    stash), and an exit that never requested [git stash pop] is an error
    return. *)
Theorem stash_restoration_on_success (E : env) :
  (let '(r, tr) := sync E [] in
   stashed tr = true ->
   (r = Ret tt -> restoration_follows tr) /\
   (find_index (is_exec pop_args) tr = None -> exists e, r = Throw e)) /\
  (let '(r, tr) := switch E [] in
   stashed tr = true ->
   (r = Ret tt -> restoration_follows tr) /\
   (find_index (is_exec pop_args) tr = None -> exists e, r = Throw e)).
Proof.
  unfold restoration_follows. split.
  - destruct (sync E []) as [r tr] eqn:Hrun.
    unfold_run Hrun. split_run Hrun. all: close_run.
  - destruct (switch E []) as [r tr] eqn:Hrun.
    unfold_run Hrun. split_run Hrun. all: close_run.
Qed.

Lemma stash_restoration_on_success_witness :
  stashed (snd (sync (env_fetch_fails (Err OperationCanceled) TypedNo) [])) = true /\
  restoration_follows (snd (sync (env_fetch_fails (Err OperationCanceled) TypedNo) [])).
Proof.
  split; [vm_compute; reflexivity|].
  pose proof (proj1 (stash_restoration_on_success (env_fetch_fails (Err OperationCanceled) TypedNo))) as H.
  destruct (sync (env_fetch_fails (Err OperationCanceled) TypedNo) []) as [r tr] eqn:Hrun.
  vm_compute in Hrun. injection Hrun as <- <-.
  apply H; vm_compute; reflexivity.
Defined.

(** C1 as stated fails: when the [git fetch -p] child of a [sync] that
    stashed local changes cannot be spawned, [sync] returns the error
    without requesting [git stash pop], [git stash clear] or [git reset]. *)
Lemma stash_restoration_all_paths_counterexample :
  let '(r, tr) := sync env_fetch_spawn_fails [] in
  stashed tr = true /\
  r = Throw (Command (u "failed to fetch remote changes: Resource temporarily unavailable (os error 11)")) /\
  find_index (is_exec pop_args) tr = None /\
  find_index (is_exec clear_args) tr = None /\
  find_index (is_exec reset_args) tr = None.
Proof. vm_compute. repeat split. Qed.

(** C3 (amended): in a [sync] run, whenever the restoration starts
    ([git stash pop] is requested) the pull has run and the latest commit
    has already been read with [git log -1 --oneline] and printed: the
    latest-commit report precedes the restoration of the stashed changes.
    The restoration steps follow the report in order ([git stash clear]
    after [git stash pop], [git reset] after [git stash clear]), and the
    completion message follows them; a run that returns [Ok(())] has
    requested all of them and printed the completion message. *)
Theorem sync_report_before_restore (E : env) :
  let '(r, tr) := sync E [] in
  forall k, find_index (is_exec pop_args) tr = Some k ->
  (exists p i j, find_index (is_exec pull_args) tr = Some p /\
    find_index (is_exec log_args) tr = Some i /\
    find_index is_commit_report tr = Some j /\ (p < i < j /\ j < k)%nat) /\
  (forall c, find_index (is_exec clear_args) tr = Some c -> (k < c)%nat) /\
  (forall d, find_index (is_exec reset_args) tr = Some d ->
     exists c, find_index (is_exec clear_args) tr = Some c /\ (c < d)%nat) /\
  (forall m, find_index is_sync_complete tr = Some m ->
     exists d, find_index (is_exec reset_args) tr = Some d /\ (d < m)%nat) /\
  (r = Ret tt -> exists c d m, find_index (is_exec clear_args) tr = Some c /\
     find_index (is_exec reset_args) tr = Some d /\
     find_index is_sync_complete tr = Some m /\ (k < c < d /\ d < m)%nat).
Proof.
  destruct (sync E []) as [r tr] eqn:Hrun.
  unfold_run Hrun. split_run Hrun.
  all: cbn; intros k Hk; try discriminate Hk; injection Hk as <-.
  all: repeat match goal with
    | |- _ /\ _ => split
    | |- forall _, _ => intro
    | H : Some _ = Some _ |- _ => injection H as <-
    | H : None = Some _ |- _ => discriminate H
    | H : Throw _ = Ret _ |- _ => discriminate H
    | H : Panic _ = Ret _ |- _ => discriminate H
    | |- exists _, _ => eexists
    | |- Some _ = Some _ => reflexivity
    end; lia.
Qed.

Lemma sync_report_before_restore_witness :
  let '(r, tr) := sync (env_fetch_fails (Err OperationCanceled) TypedNo) [] in
  find_index (is_exec pop_args) tr = Some 17%nat /\ r = Ret tt /\
  exists c d m, find_index (is_exec clear_args) tr = Some c /\
    find_index (is_exec reset_args) tr = Some d /\
    find_index is_sync_complete tr = Some m /\ (17 < c < d /\ d < m)%nat.
Proof.
  pose proof (sync_report_before_restore (env_fetch_fails (Err OperationCanceled) TypedNo)) as H.
  destruct (sync (env_fetch_fails (Err OperationCanceled) TypedNo) []) as [r tr] eqn:Hrun.
  vm_compute in Hrun. injection Hrun as <- <-.
  split; [vm_compute; reflexivity|]. split; [reflexivity|].
  destruct (H 17%nat) as (_ & _ & _ & _ & Hok); [vm_compute; reflexivity|].
  apply Hok; reflexivity.
Defined.

(** C3 as stated fails: in a [sync] that stashed local changes, the latest
    commit is read (position 14 of the trace) and reported (position 15)
    before [git stash pop] (position 17), [git stash clear] and
    [git reset]. *)
Lemma sync_restore_before_report_counterexample :
  let tr := snd (sync (env_fetch_fails (Err OperationCanceled) TypedNo) []) in
  stashed tr = true /\
  find_index (is_exec log_args) tr = Some 14%nat /\
  find_index is_commit_report tr = Some 15%nat /\
  find_index (is_exec pop_args) tr = Some 17%nat /\
  find_index (is_exec clear_args) tr = Some 19%nat /\
  find_index (is_exec reset_args) tr = Some 22%nat.
Proof. vm_compute. repeat split. Qed.

(** Hypotheses [In x l] over a computed list: one case per element. *)
Ltac solve_in :=
  repeat match goal with
  | H : False |- _ => contradiction H
  | H : In _ _ |- _ =>
      cbn in H; repeat destruct H as [H|H]; try contradiction; try discriminate;
      try (injection H as ?); subst
  end.

Lemma no_mutation_app (t t' : trace) :
  no_mutation (t ++ t') = no_mutation t && no_mutation t'.
Proof. unfold no_mutation. apply forallb_app. Qed.

Lemma last_event_snoc (t : trace) (e : event) : last_event (t ++ [e]) = Some e.
Proof. unfold last_event. rewrite rev_app_distr. reflexivity. Qed.

Lemma get_branch_info_queries (E : env) (o : outcome (ustr * list ustr)) (t : trace) :
  get_branch_info E [] = (o, t) -> no_mutation t = true.
Proof.
  intros Hrun. unfold_run Hrun. split_run Hrun. all: reflexivity.
Qed.

(** C2 (evaluation at the failing input): [git fetch -p] exits with status
    128, yet [sync] goes on with [git pull --rebase], reports the latest
    commit, restores the stash and returns [Ok(())] with its completion
    message. *)
Theorem sync_ignores_fetch_failure :
  let tr := snd (sync (env_fetch_fails (Err OperationCanceled) TypedNo) []) in
  fst (sync (env_fetch_fails (Err OperationCanceled) TypedNo) []) = Ret tt /\
  run_git (env_fetch_fails (Err OperationCanceled) TypedNo) [] fetch_args
    = Ran (Exited 128) [] (bytes_of ("fatal: unable to access remote" ++ nl)) /\
  find_index (is_exec fetch_args) tr = Some 10%nat /\
  find_index (is_exec pull_args) tr = Some 12%nat /\
  last_event tr = Some (EvPrint (bold (u "git sync complete ^.^"))).
Proof. vm_compute. repeat split. Qed.

(** C4: the confirmation prompt of [delete] has default answer no;
    [git branch -D] is requested exactly when the user typed yes; any other
    confirmation input (no, the empty default, a cancellation or another
    prompt failure) ends the run with [Ok(())] and no command that changes
    the repository. *)
Theorem delete_requires_explicit_yes (E : env) :
  let '(r, tr) := delete E [] in
  forallb confirm_default_false tr = true /\
  existsb is_branch_delete tr = existsb is_typed_yes tr /\
  (forall a, In a (confirm_inputs tr) -> a <> TypedYes -> r = Ret tt /\ no_mutation tr = true).
Proof.
  destruct (delete E []) as [r tr] eqn:Hrun.
  unfold_run Hrun. split_run Hrun.
  all: split; [reflexivity|split; [reflexivity|intros inp Hinp Hne]]; solve_in.
  all: try (exfalso; apply Hne; reflexivity).
  all: split; reflexivity.
Qed.

Lemma delete_requires_explicit_yes_witness :
  let '(r, tr) := delete (env_fetch_fails (Ok (u "feature-x")) EmptyInput) [] in
  r = Ret tt /\ no_mutation tr = true.
Proof.
  pose proof (delete_requires_explicit_yes (env_fetch_fails (Ok (u "feature-x")) EmptyInput)) as H.
  destruct (delete (env_fetch_fails (Ok (u "feature-x")) EmptyInput) []) as [r tr] eqn:Hrun.
  vm_compute in Hrun. injection Hrun as <- <-.
  destruct H as (_ & _ & H). apply (H EmptyInput); [left; reflexivity | discriminate].
Defined.

(** C5: when the user cancels the branch selection of [switch] or
    [delete], the run returns [Ok(())] after printing that it aborts, and
    requested no command that changes the repository. *)
Theorem select_cancel_no_mutation (E : env) :
  (let '(r, tr) := switch E [] in
   In (Err OperationCanceled) (select_answers tr) ->
   r = Ret tt /\ no_mutation tr = true /\
   last_event tr = Some (EvPrint (bold (u "aborting branch switch")))) /\
  (let '(r, tr) := delete E [] in
   In (Err OperationCanceled) (select_answers tr) ->
   r = Ret tt /\ no_mutation tr = true /\
   last_event tr = Some (EvPrint (bold (u "aborting branch delete")))).
Proof.
  split.
  - destruct (switch E []) as [r tr] eqn:Hrun.
    unfold_run Hrun. split_run Hrun.
    all: intros Hin; solve_in; repeat split; reflexivity.
  - destruct (delete E []) as [r tr] eqn:Hrun.
    unfold_run Hrun. split_run Hrun.
    all: intros Hin; solve_in; repeat split; reflexivity.
Qed.

Lemma select_cancel_no_mutation_witness :
  fst (switch (env_fetch_fails (Err OperationCanceled) TypedNo) []) = Ret tt /\
  fst (delete (env_fetch_fails (Err OperationCanceled) TypedNo) []) = Ret tt.
Proof.
  pose proof (select_cancel_no_mutation (env_fetch_fails (Err OperationCanceled) TypedNo)) as [H1 H2].
  destruct (switch (env_fetch_fails (Err OperationCanceled) TypedNo) []) as [r1 t1] eqn:R1.
  destruct (delete (env_fetch_fails (Err OperationCanceled) TypedNo) []) as [r2 t2] eqn:R2.
  vm_compute in R1. injection R1 as <- <-.
  vm_compute in R2. injection R2 as <- <-.
  split; [apply H1 | apply H2]; left; reflexivity.
Defined.

(** C6: when the branch listing yields no branch besides the current one,
    [switch] and [delete] print that there is nothing to switch (delete),
    return [Ok(())] and request no command that changes the repository. *)
Theorem single_branch_nothing_to_do (E : env) (current : ustr) :
  fst (get_branch_info E []) = Ret (current, []) ->
  (let '(r, tr) := switch E [] in
   r = Ret tt /\ no_mutation tr = true /\
   last_event tr = Some (EvPrint (u "no other local branches found except for: "
                                  ++ bold current ++ u ". nothing to switch."))) /\
  (let '(r, tr) := delete E [] in
   r = Ret tt /\ no_mutation tr = true /\
   last_event tr = Some (EvPrint (u "no other local branches found except for: "
                                  ++ bold current ++ u ". nothing to delete."))).
Proof.
  intros Hinfo.
  destruct (get_branch_info E []) as [o t] eqn:Hg. cbn in Hinfo. subst o.
  pose proof (get_branch_info_queries E _ _ Hg) as Ht.
  unfold switch, delete, bind. rewrite Hg.
  cbv beta iota zeta delta [is_empty println emit ret].
  rewrite !no_mutation_app, !last_event_snoc, Ht.
  repeat split; reflexivity.
Qed.

Lemma single_branch_nothing_to_do_witness :
  fst (switch env_single_branch []) = Ret tt /\ fst (delete env_single_branch []) = Ret tt.
Proof.
  destruct (single_branch_nothing_to_do env_single_branch (u "main")) as [H1 H2];
    [vm_compute; reflexivity|].
  destruct (switch env_single_branch []) as [r1 t1].
  destruct (delete env_single_branch []) as [r2 t2].
  split; [apply H1 | apply H2].
Defined.

(** C7: a failure of the selection prompt of [switch] or [delete], or of
    the confirmation prompt of [delete], other than the user's cancellation,
    ends the run with [Ok(())] after printing the error as unexpected and
    that it aborts, with no command that changes the repository. *)
Theorem unexpected_prompt_error_aborts (E : env) :
  (let '(r, tr) := switch E [] in
   forall e, unexpected_prompt_error e = true ->
   In (Err e) (select_answers tr) ->
   r = Ret tt /\ no_mutation tr = true /\
   last_event tr = Some (EvPrint (u "unexpected error: " ++ display_inquire_error e ++ u ". "
                                  ++ bold (u "aborting branch switch")))) /\
  (let '(r, tr) := delete E [] in
   forall e, unexpected_prompt_error e = true ->
   In (Err e) (select_answers tr) \/ In (ConfirmFailed e) (confirm_inputs tr) ->
   r = Ret tt /\ no_mutation tr = true /\
   last_event tr = Some (EvPrint (u "unexpected error: " ++ display_inquire_error e ++ u ". "
                                  ++ bold (u "aborting branch delete")))).
Proof.
  split.
  - destruct (switch E []) as [r tr] eqn:Hrun.
    unfold_run Hrun. split_run Hrun.
    all: intros perr Herr Hin; solve_in; try discriminate Herr; repeat split; reflexivity.
  - destruct (delete E []) as [r tr] eqn:Hrun.
    unfold_run Hrun. split_run Hrun.
    all: intros perr Herr Hin; destruct Hin as [Hin|Hin]; solve_in;
         try discriminate Herr; repeat split; reflexivity.
Qed.

Lemma unexpected_prompt_error_aborts_witness :
  fst (switch (env_fetch_fails (Err NotTTY) TypedNo) []) = Ret tt /\
  fst (delete (env_fetch_fails (Ok (u "feature-x")) (ConfirmFailed OperationInterrupted)) []) = Ret tt.
Proof.
  pose proof (proj1 (unexpected_prompt_error_aborts (env_fetch_fails (Err NotTTY) TypedNo))) as H1.
  pose proof (proj2 (unexpected_prompt_error_aborts
                       (env_fetch_fails (Ok (u "feature-x")) (ConfirmFailed OperationInterrupted)))) as H2.
  destruct (switch (env_fetch_fails (Err NotTTY) TypedNo) []) as [r1 t1] eqn:R1.
  destruct (delete (env_fetch_fails (Ok (u "feature-x")) (ConfirmFailed OperationInterrupted)) [])
    as [r2 t2] eqn:R2.
  vm_compute in R1. injection R1 as <- <-.
  vm_compute in R2. injection R2 as <- <-.
  split.
  - apply (H1 NotTTY); [reflexivity | left; reflexivity].
  - apply (H2 OperationInterrupted); [reflexivity | right; left; reflexivity].
Defined.

(** Discharge the cases in which a child that always launches failed to. *)
Ltac spawn_contra Hall :=
  match goal with
  | H : run_git ?E ?t ?a = SpawnFailed _ |- _ =>
      let st := fresh "st" in let o := fresh "o" in let e := fresh "e" in
      let Hx := fresh "Hx" in
      destruct (Hall t a) as (st & o & e & Hx); rewrite Hx in H; discriminate H
  end.

(** C10: [git_exec] returns [Ok] with the child's status whenever the child
    is spawned, whatever that status, and [CliError::Command] exactly when
    it cannot be spawned.  Hence when [git] is on the path and every child
    is spawned, [sync] and [switch] return [Ok(())] whatever the exit
    statuses of add, stash, fetch, pull, checkout, stash pop, stash clear
    and reset; a [sync] that got past its two [rev-parse] checks and a
    [switch] whose selection gave a branch end with their completion
    message. *)
Theorem git_exec_ignores_exit_status (E : env) :
  (forall tr args msg cap,
     match run_git E tr args with
     | SpawnFailed io => fst (git_exec E args msg cap tr) = Throw (Command (msg ++ u ": " ++ io))
     | Ran st _ _ => exists o, fst (git_exec E args msg cap tr) = Ret o /\ status o = st
     end) /\
  (git_on_path E = true ->
   (forall tr args, exists st out err, run_git E tr args = Ran st out err) ->
   (let '(r, tr) := sync E [] in
    r = Ret tt /\
    (existsb (is_exec status_args) tr = true ->
     last_event tr = Some (EvPrint (bold (u "git sync complete ^.^"))))) /\
   (let '(r, tr) := switch E [] in
    r = Ret tt /\
    (forall b, In (Ok b) (select_answers tr) ->
     last_event tr = Some (EvPrint (bold (u "branch switch complete ^.^")))))).
Proof.
  split.
  - intros tr args msg cap. unfold git_exec.
    destruct (run_git E tr args) as [io|st out err]; [reflexivity|].
    destruct cap; eexists; split; reflexivity.
  - intros Hpath Hall. split.
    + destruct (sync E []) as [r tr] eqn:Hrun.
      unfold_run Hrun. split_run Hrun.
      all: try spawn_contra Hall; try congruence.
      all: split; [reflexivity | intros Hs; try discriminate Hs; reflexivity].
    + destruct (switch E []) as [r tr] eqn:Hrun.
      unfold_run Hrun. split_run Hrun.
      all: try spawn_contra Hall; try congruence.
      all: split; [reflexivity | intros br Hb; solve_in; reflexivity].
Qed.

Lemma git_exec_ignores_exit_status_witness :
  fst (sync (env_fetch_fails (Ok (u "feature-x")) TypedNo) []) = Ret tt /\
  fst (switch (env_fetch_fails (Ok (u "feature-x")) TypedNo) []) = Ret tt.
Proof.
  destruct (proj2 (git_exec_ignores_exit_status (env_fetch_fails (Ok (u "feature-x")) TypedNo)))
    as [H1 H2].
  - reflexivity.
  - intros tr args. cbn.
    repeat match goal with |- context [if ?b then _ else _] => destruct b end; eauto.
  - destruct (sync (env_fetch_fails (Ok (u "feature-x")) TypedNo) []) as [r1 t1].
    destruct (switch (env_fetch_fails (Ok (u "feature-x")) TypedNo) []) as [r2 t2].
    split; [apply H1 | apply H2].
Defined.

(** ** Parsing the branch listing *)

Lemma utf8_decode_ascii (bs : list Byte.byte) (fuel : nat) :
  Forall (fun b => (Byte.to_N b < 128)%N) bs -> (List.length bs <= fuel)%nat ->
  utf8_decode_fuel fuel bs = map Byte.to_N bs.
Proof.
  revert fuel. induction bs as [|b bs IH]; intros fuel Hall Hlen; destruct fuel; cbn in *;
    try reflexivity; try lia.
  inversion Hall as [|? ? Hb Hbs]; subst.
  unfold utf8_step. apply N.ltb_lt in Hb. rewrite Hb.
  f_equal. apply IH; [assumption | lia].
Qed.

Lemma from_utf8_lossy_ascii (bs : list Byte.byte) :
  Forall (fun b => (Byte.to_N b < 128)%N) bs -> from_utf8_lossy bs = map Byte.to_N bs.
Proof. intros H. apply utf8_decode_ascii; [assumption | lia]. Qed.

Lemma trim_start_length (s : ustr) : (List.length (trim_start s) <= List.length s)%nat.
Proof.
  induction s as [|c s IH]; cbn; [lia|]. destruct (is_whitespace c); cbn; lia.
Qed.

Lemma trim_start_app (x y : ustr) :
  trim_start (x ++ y) = match trim_start x with [] => trim_start y | r => r ++ y end.
Proof.
  induction x as [|c x IH]; cbn; [reflexivity|].
  destruct (is_whitespace c); [exact IH | reflexivity].
Qed.

(** A string equal to its [trim_end] does not end in white space. *)
Lemma trim_end_fixed_last (s : ustr) :
  trim_end s = s -> s <> [] -> exists c r, rev s = c :: r /\ is_whitespace c = false.
Proof.
  unfold trim_end. intros Hfix Hne.
  assert (Hts : trim_start (rev s) = rev s).
  { rewrite <- (rev_involutive (trim_start (rev s))), Hfix. reflexivity. }
  destruct (rev s) as [|c r] eqn:Hr.
  - apply (f_equal (@rev N)) in Hr. rewrite rev_involutive in Hr. contradiction.
  - exists c, r. split; [reflexivity|].
    cbn in Hts. destruct (is_whitespace c); [|reflexivity].
    pose proof (trim_start_length r) as Hl. rewrite Hts in Hl. cbn in Hl. lia.
Qed.

Lemma split_inclusive_nl_line (l rest : ustr) :
  ~ In newline l ->
  split_inclusive_nl (l ++ newline :: rest) = (l ++ [newline]) :: split_inclusive_nl rest.
Proof.
  induction l as [|c l IH]; intros Hn; cbn; [reflexivity|].
  assert (Hc : (c =? newline)%N = false).
  { apply N.eqb_neq. intros ->. apply Hn. left; reflexivity. }
  rewrite Hc, IH; [reflexivity|]. intros H; apply Hn; right; exact H.
Qed.

Lemma strip_line_ending_nl (l : ustr) :
  (forall r, rev l <> carriage_return :: r) -> strip_line_ending (l ++ [newline]) = l.
Proof.
  intros Hcr. unfold strip_line_ending. rewrite rev_app_distr. cbn.
  destruct (rev l) as [|c r] eqn:Hr.
  - apply (f_equal (@rev N)) in Hr. rewrite rev_involutive in Hr. subst. reflexivity.
  - destruct (N.eqb_spec c carriage_return) as [->|]; [exfalso; exact (Hcr r eq_refl)|].
    rewrite <- Hr, rev_involutive. reflexivity.
Qed.

Lemma listing_line_text (entry : bool * list Byte.byte) :
  map Byte.to_N (listing_line entry) = listing_text entry ++ [newline].
Proof.
  destruct entry as [[|] n]; unfold listing_line, listing_text; cbn; rewrite map_app; reflexivity.
Qed.

Lemma listing_lines (entries : list (bool * list Byte.byte)) :
  Forall (fun e => branch_name_ok (snd e)) entries ->
  lines (map Byte.to_N (git_branch_listing entries)) = map listing_text entries.
Proof.
  unfold lines. induction entries as [|[cur n] es IH]; intros Hall; [reflexivity|].
  inversion Hall as [|? ? Hn Hes]; subst. destruct Hn as (_ & Hnl & Hne & _ & Hend & _).
  unfold git_branch_listing in *. cbn [flat_map snd fst] in *.
  rewrite map_app, listing_line_text, <- app_assoc. cbn [app].
  rewrite split_inclusive_nl_line.
  - cbn [map]. rewrite IH by assumption. rewrite strip_line_ending_nl; [reflexivity|].
    intros r Hr. unfold listing_text in Hr. rewrite rev_app_distr in Hr.
    assert (Hmn : map Byte.to_N n <> []) by (destruct n; [contradiction | discriminate]).
    destruct (trim_end_fixed_last _ Hend Hmn) as (c & r' & Hrev & Hws).
    cbn [snd] in Hr. rewrite Hrev in Hr. cbn in Hr. injection Hr as -> _. discriminate Hws.
  - unfold listing_text. intros Hin. apply in_app_or in Hin as [Hin|Hin].
    + destruct cur; cbn in Hin; repeat destruct Hin as [Hin|Hin]; discriminate || contradiction.
    + contradiction.
Qed.

Lemma trim_start_of_trim_end (s : ustr) : trim_end s = s -> trim_start (rev s) = rev s.
Proof.
  unfold trim_end. intros H.
  rewrite <- (rev_involutive (trim_start (rev s))), H. reflexivity.
Qed.

(** The trimmed listing line: ["* " ++ name] for the current branch, the
    bare name for the others. *)
Lemma trim_listing_text (entry : bool * list Byte.byte) :
  branch_name_ok (snd entry) ->
  trim (listing_text entry) =
    if fst entry then (42 :: 32 :: map Byte.to_N (snd entry))%N else map Byte.to_N (snd entry).
Proof.
  destruct entry as [cur n]. intros (_ & _ & Hne & Hstart & Hend & _). cbn [fst snd] in *.
  unfold listing_text, trim. cbn [fst snd].
  destruct cur; cbn [app trim_start is_whitespace]; cbn -[trim_end trim_start].
  - unfold trim_end. cbn [rev]. rewrite <- app_assoc. cbn [app].
    rewrite trim_start_app, (trim_start_of_trim_end _ Hend).
    destruct (rev (map Byte.to_N n)) as [|c r] eqn:Hr.
    + apply (f_equal (@rev N)) in Hr. rewrite rev_involutive in Hr.
      destruct n; [contradiction | discriminate].
    + rewrite <- Hr, rev_app_distr, rev_involutive. reflexivity.
  - rewrite Hstart. exact Hend.
Qed.

Lemma listing_ascii (entries : list (bool * list Byte.byte)) :
  Forall (fun e => branch_name_ok (snd e)) entries ->
  Forall (fun b => (Byte.to_N b < 128)%N) (git_branch_listing entries).
Proof.
  unfold git_branch_listing. induction entries as [|[cur n] es IH]; intros Hall; cbn; [constructor|].
  inversion Hall as [|? ? (Hn & _) Hes]; subst.
  apply Forall_app; split; [|apply IH, Hes].
  unfold listing_line. cbn [fst snd].
  apply Forall_app; split; [destruct cur; repeat constructor; cbn; lia|].
  apply Forall_app; split; [exact Hn | repeat constructor; cbn; lia].
Qed.

(** [get_branch_info]'s parsing on the output of [git branch --no-color]:
    the current branch is the name on the first line marked ["* "] (["main"]
    when no line is marked), and the other branches are the names of the
    unmarked lines, in the order of the listing. *)
Theorem parse_branch_output_listing (entries : list (bool * list Byte.byte)) :
  Forall (fun e => branch_name_ok (snd e)) entries ->
  parse_branch_output (git_branch_listing entries) =
    (match find fst entries with Some (_, n) => map Byte.to_N n | None => u "main" end,
     map (fun e => map Byte.to_N (snd e)) (filter (fun e => negb (fst e)) entries)).
Proof.
  intros Hall. unfold parse_branch_output. cbv zeta.
  rewrite (from_utf8_lossy_ascii _ (listing_ascii _ Hall)), (listing_lines _ Hall).
  rewrite map_map. f_equal.
  - induction entries as [|[cur n] es IH]; [reflexivity|].
    inversion Hall as [|? ? Hn Hes]; subst. cbn [map find].
    rewrite (trim_listing_text _ Hn). cbn [fst snd].
    destruct cur.
    + cbn. destruct Hn as (_ & _ & _ & Hstart & Hend & _). cbn [snd] in *.
      unfold trim. rewrite Hstart. exact Hend.
    + destruct Hn as (_ & _ & _ & _ & _ & Hstar). cbn [fst snd] in Hstar.
      rewrite Hstar. apply IH, Hes.
  - induction entries as [|[cur n] es IH]; [reflexivity|].
    inversion Hall as [|? ? Hn Hes]; subst. cbn [map filter].
    rewrite (trim_listing_text _ Hn). cbn [fst snd].
    destruct cur; cbn [negb starts_with_star].
    + cbn. apply IH, Hes.
    + destruct Hn as (_ & _ & _ & Hstart & Hend & Hstar). cbn [fst snd] in *.
      rewrite Hstar. cbn [negb map]. rewrite IH by exact Hes.
      unfold trim. rewrite Hstart, Hend. reflexivity.
Qed.

Lemma parse_branch_output_listing_witness :
  parse_branch_output (git_branch_listing [(true, bytes_of "main"); (false, bytes_of "feature-x")])
  = (u "main", [u "feature-x"]).
Proof.
  rewrite (parse_branch_output_listing [(true, bytes_of "main"); (false, bytes_of "feature-x")]);
    [reflexivity|].
  apply Forall_cons; [|apply Forall_cons; [|apply Forall_nil]]; unfold branch_name_ok; cbn [snd];
    (split; [repeat (apply Forall_cons; [reflexivity|]); apply Forall_nil|]);
    (split; [cbn; intuition discriminate | split; [discriminate | repeat split]]).
Defined.

(** When [which] does not find [git], [sync], [switch] and [delete] panic
    with the message of their [expect] followed by [which]'s error, before
    requesting any [git] child or prompting. *)
Theorem workflows_panic_without_git (E : env) :
  git_on_path E = false ->
  let msg := u "git not found. install git and try again." ++ u ": "
             ++ debug_which_error (which_failure E) in
  sync E [] = (Panic msg, []) /\
  switch E [] = (Panic msg, []) /\
  delete E [] = (Panic msg, []).
Proof.
  intros Hpath. unfold sync, switch, delete, get_branch_info, bind, which_git.
  rewrite Hpath. repeat split.
Qed.

Lemma workflows_panic_without_git_witness :
  fst (sync env_no_git []) =
  Panic (u "git not found. install git and try again.: CannotFindBinaryPath").
Proof.
  destruct (workflows_panic_without_git env_no_git eq_refl) as (H & _ & _).
  rewrite H. reflexivity.
Defined.

(** Outside a repository ([git rev-parse --git-dir] does not succeed)
    [sync] prints that there is nothing to sync and returns [Ok(())]
    after that single query. *)
Theorem sync_outside_repository (E : env) (st : exit_status) (out err : list Byte.byte) :
  git_on_path E = true ->
  run_git E [] [u "rev-parse"; u "--git-dir"] = Ran st out err ->
  success st = false ->
  sync E [] = (Ret tt, [EvExec [u "rev-parse"; u "--git-dir"] true true;
                        EvPrint (u "current directory is not a git repository. nothing to sync.")]).
Proof.
  intros Hpath Hrun Hst.
  unfold sync, bind, which_git. rewrite Hpath.
  unfold git_exec at 1. rewrite Hrun. cbn [status]. rewrite Hst. reflexivity.
Qed.

Lemma sync_outside_repository_witness :
  fst (sync env_not_a_repo []) = Ret tt.
Proof.
  rewrite (sync_outside_repository env_not_a_repo (Exited 128) []
             (bytes_of ("fatal: not a git repository" ++ nl))); reflexivity.
Defined.

(** Inside a repository whose branch has no upstream
    ([git rev-parse ... @{u}] does not succeed), [sync] prints that there is
    nothing to sync and returns [Ok(())] after the two queries. *)
Theorem sync_without_upstream (E : env) (st1 st2 : exit_status) (o1 e1 o2 e2 : list Byte.byte) :
  git_on_path E = true ->
  run_git E [] [u "rev-parse"; u "--git-dir"] = Ran st1 o1 e1 ->
  success st1 = true ->
  run_git E [EvExec [u "rev-parse"; u "--git-dir"] true true]
    [u "rev-parse"; u "--abbrev-ref"; u "--symbolic-full-name"; u "@{u}"] = Ran st2 o2 e2 ->
  success st2 = false ->
  sync E [] = (Ret tt, [EvExec [u "rev-parse"; u "--git-dir"] true true;
                        EvExec [u "rev-parse"; u "--abbrev-ref"; u "--symbolic-full-name"; u "@{u}"]
                          true true;
                        EvPrint (u "no upstream branch found. nothing to sync")]).
Proof.
  intros Hpath Hrun1 Hst1 Hrun2 Hst2.
  unfold sync, bind, which_git. rewrite Hpath.
  unfold git_exec at 1. rewrite Hrun1. cbn [status negb]. rewrite Hst1. cbn [negb].
  unfold git_exec at 1. cbn [app]. rewrite Hrun2. cbn [status]. rewrite Hst2. reflexivity.
Qed.

Lemma sync_without_upstream_witness :
  fst (sync env_no_upstream []) = Ret tt.
Proof.
  rewrite (sync_without_upstream env_no_upstream (Exited 0) (Exited 128) (bytes_of (".git" ++ nl)) []
             [] (bytes_of ("fatal: no upstream configured for branch 'main'" ++ nl)));
    reflexivity.
Defined.

(** With a clean working tree ([git status --porcelain] prints nothing),
    [sync] and [switch] request none of [git add .], [git stash],
    [git stash pop], [git stash clear] and [git reset]. *)
Theorem clean_tree_no_stash_activity (E : env) :
  (forall t, exists st err, run_git E t status_args = Ran st [] err) ->
  existsb is_stash_activity (snd (sync E [])) = false /\
  existsb is_stash_activity (snd (switch E [])) = false.
Proof.
  intros Hclean. split.
  - destruct (sync E []) as [r tr] eqn:Hrun. unfold_run Hrun.
    split_run Hrun.
    all: try reflexivity.
    all: match goal with
         | H : run_git ?E ?t ?a = Ran _ (_ :: _) _ |- _ =>
             destruct (Hclean t) as (? & ? & Hc); replace a with status_args in H by reflexivity;
             rewrite Hc in H; discriminate H
         end.
  - destruct (switch E []) as [r tr] eqn:Hrun. unfold_run Hrun.
    split_run Hrun.
    all: try reflexivity.
    all: match goal with
         | H : run_git ?E ?t ?a = Ran _ (_ :: _) _ |- _ =>
             destruct (Hclean t) as (? & ? & Hc); replace a with status_args in H by reflexivity;
             rewrite Hc in H; discriminate H
         end.
Qed.

Lemma clean_tree_no_stash_activity_witness :
  existsb is_stash_activity (snd (switch env_clean [])) = false.
Proof.
  apply (proj2 (clean_tree_no_stash_activity env_clean
                  (fun t => ex_intro _ (Exited 0) (ex_intro _ [] eq_refl)))).
Defined.

(** In a [switch] that stashed local changes and returns [Ok(())], the
    checkout is wrapped by the protection: [git add .], [git stash],
    [git checkout <branch>], [git stash pop], [git stash clear] and
    [git reset] are requested in this order. *)
Theorem switch_protects_checkout (E : env) :
  let '(r, tr) := switch E [] in
  stashed tr = true -> r = Ret tt ->
  exists a s c p k z,
    find_index (is_exec [u "add"; u "."]) tr = Some a /\
    find_index (is_exec stash_args) tr = Some s /\
    find_index is_checkout tr = Some c /\
    find_index (is_exec pop_args) tr = Some p /\
    find_index (is_exec clear_args) tr = Some k /\
    find_index (is_exec reset_args) tr = Some z /\
    (a < s < c /\ c < p < k /\ k < z)%nat.
Proof.
  destruct (switch E []) as [r tr] eqn:Hrun. unfold_run Hrun. split_run Hrun.
  all: cbn; intros Hs Hr; try discriminate Hs; try discriminate Hr.
  all: do 6 eexists; repeat (split; [reflexivity|]); lia.
Qed.

Lemma switch_protects_checkout_witness :
  exists a s c p k z,
    find_index (is_exec [u "add"; u "."]) (snd (switch (env_fetch_fails (Ok (u "feature-x")) TypedNo) [])) = Some a /\
    find_index (is_exec stash_args) (snd (switch (env_fetch_fails (Ok (u "feature-x")) TypedNo) [])) = Some s /\
    find_index is_checkout (snd (switch (env_fetch_fails (Ok (u "feature-x")) TypedNo) [])) = Some c /\
    find_index (is_exec pop_args) (snd (switch (env_fetch_fails (Ok (u "feature-x")) TypedNo) [])) = Some p /\
    find_index (is_exec clear_args) (snd (switch (env_fetch_fails (Ok (u "feature-x")) TypedNo) [])) = Some k /\
    find_index (is_exec reset_args) (snd (switch (env_fetch_fails (Ok (u "feature-x")) TypedNo) [])) = Some z /\
    (a < s < c /\ c < p < k /\ k < z)%nat.
Proof.
  pose proof (switch_protects_checkout (env_fetch_fails (Ok (u "feature-x")) TypedNo)) as H.
  destruct (switch (env_fetch_fails (Ok (u "feature-x")) TypedNo) []) as [r tr] eqn:Hrun.
  vm_compute in Hrun. injection Hrun as <- <-.
  apply H; vm_compute; reflexivity.
Defined.

(** [switch] checks out and [delete] force-deletes only the branch the
    selection prompt returned. *)
Theorem targets_are_selected (E : env) :
  (let '(_, tr) := switch E [] in
   forall b cap l, In (EvExec [u "checkout"; b] cap l) tr -> In (Ok b) (select_answers tr)) /\
  (let '(_, tr) := delete E [] in
   forall b cap l, In (EvExec [u "branch"; u "-D"; b] cap l) tr -> In (Ok b) (select_answers tr)).
Proof.
  split.
  - destruct (switch E []) as [r tr] eqn:Hrun. unfold_run Hrun. split_run Hrun.
    all: intros br cap lch Hin; solve_in; cbn; auto.
  - destruct (delete E []) as [r tr] eqn:Hrun. unfold_run Hrun. split_run Hrun.
    all: intros br cap lch Hin; solve_in; cbn; auto.
Qed.

Lemma targets_are_selected_witness :
  In (Ok (u "feature-x")) (select_answers (snd (delete env_clean []))).
Proof.
  pose proof (proj2 (targets_are_selected env_clean)) as H.
  destruct (delete env_clean []) as [r tr] eqn:Hrun.
  vm_compute in Hrun. injection Hrun as <- <-.
  apply (H (u "feature-x") false true). vm_compute. auto 20.
Defined.

(** [delete] requests no [git] child other than the branch listing and at
    most one [git branch -D <name>]. *)
Theorem delete_single_mutation (E : env) :
  let tr := snd (delete E []) in
  only_queries_or_branch_delete tr = true /\ (List.length (filter is_branch_delete tr) <= 1)%nat.
Proof.
  destruct (delete E []) as [r tr] eqn:Hrun. cbn [snd]. unfold_run Hrun. split_run Hrun.
  all: split; [reflexivity | cbn; lia].
Qed.

(** A [sync] or [switch] that returns [Ok(())] leaves the stash list as it
    found it: it requested [git stash] exactly as often as [git stash pop]
    (once each when there were local changes, never otherwise). *)
Theorem ok_runs_balance_stash (E : env) :
  (let '(r, tr) := sync E [] in
   r = Ret tt ->
   List.length (filter (is_exec stash_args) tr) = List.length (filter (is_exec pop_args) tr) /\
   (List.length (filter (is_exec stash_args) tr) <= 1)%nat) /\
  (let '(r, tr) := switch E [] in
   r = Ret tt ->
   List.length (filter (is_exec stash_args) tr) = List.length (filter (is_exec pop_args) tr) /\
   (List.length (filter (is_exec stash_args) tr) <= 1)%nat).
Proof.
  split.
  - destruct (sync E []) as [r tr] eqn:Hrun. unfold_run Hrun. split_run Hrun.
    all: intros Hr; first [discriminate Hr | cbn; split; [reflexivity | lia]].
  - destruct (switch E []) as [r tr] eqn:Hrun. unfold_run Hrun. split_run Hrun.
    all: intros Hr; first [discriminate Hr | cbn; split; [reflexivity | lia]].
Qed.

Lemma ok_runs_balance_stash_witness :
  List.length (filter (is_exec stash_args) (snd (sync (env_fetch_fails (Err OperationCanceled) TypedNo) [])))
  = List.length (filter (is_exec pop_args) (snd (sync (env_fetch_fails (Err OperationCanceled) TypedNo) []))).
Proof.
  pose proof (proj1 (ok_runs_balance_stash (env_fetch_fails (Err OperationCanceled) TypedNo))) as H.
  destruct (sync (env_fetch_fails (Err OperationCanceled) TypedNo) []) as [r tr] eqn:Hrun.
  vm_compute in Hrun. injection Hrun as <- <-.
  apply H. reflexivity.
Defined.
